(** * ProcessOptimizer model systems: noise models and [ModelSystem]

    A shallow embedding of
    [ProcessOptimizer/model_systems/model_system.py] together with the
    noise-model family it imports from
    [ProcessOptimizer.model_systems.noise_models] and that
    [ProcessOptimizer/tests/test_noise_model.py] exercises.

    Conventions.
    - Python numbers are kept abstract: every definition is written over a
      type [num] carrying the arithmetic the code uses ([+], [-], [*], the
      literals [1] and [0.01], and the comparison behind [np.min] and
      [np.max]).  Theorems therefore hold for any arithmetic, including
      the rounding one of Python floats.  Concrete runs use exact
      rationals.
    - Randomness is external to every object (numpy's generator): it is a
      state of type [Rng] threaded through every call that may draw.
    - A Python exception is the [Raise] outcome of a computation. *)

From Stdlib Require Import QArith Qround.
From stdpp Require Import base option list strings gmap.

(** ** Scalars *)

Class Scalar (num : Type) : Type := {
  num_add : num -> num -> num;
  num_sub : num -> num -> num;
  num_mul : num -> num -> num;
  num_one : num;
  (** the literal [0.01] *)
  num_centi : num;
  (** [x <= y] *)
  num_leb : num -> num -> bool
}.

Declare Scope num_scope.
Delimit Scope num_scope with num.
Infix "+" := num_add : num_scope.
Infix "-" := num_sub : num_scope.
Infix "*" := num_mul : num_scope.
Infix "<=?" := num_leb : num_scope.

(** ** Outcomes and the computation monad *)

Inductive Error : Type :=
| ConfigurationError
| InstantiationError
| ValueError.

Inductive Result (A : Type) : Type :=
| Ok (a : A)
| Raise (e : Error).
Arguments Ok {A} a.
Arguments Raise {A} e.

(** A computation reads and advances the external random state and either
    returns a value or raises. *)
Definition M (Rng A : Type) : Type := Rng -> Result A * Rng.

Definition ret {Rng A} (a : A) : M Rng A := fun r => (Ok a, r).

Definition bind {Rng A B} (c : M Rng A) (k : A -> M Rng B) : M Rng B :=
  fun r =>
    match c r with
    | (Ok a, r') => k a r'
    | (Raise e, r') => (Raise e, r')
    end.

Definition lift {Rng A} (x : Result A) : M Rng A := fun r => (x, r).

Notation "x <- c1 ;; c2" := (bind c1 (fun x => c2))
  (at level 100, c1 at next level, right associativity).

Fixpoint mapM {Rng A B} (f : A -> M Rng B) (l : list A) : M Rng (list B) :=
  match l with
  | [] => ret []
  | a :: l' => b <- f a ;; bs <- mapM f l' ;; ret (b :: bs)
  end.

(** ** numpy reductions *)

Section Reductions.
Context {num : Type} `{Scalar num}.

(** [np.min(scores)]: the least element under [<=?]; numpy raises
    [ValueError] on an empty sequence. *)
Definition np_min (scores : list num) : Result num :=
  match scores with
  | [] => Raise ValueError
  | y :: ys => Ok (foldl (fun m x => if (x <=? m)%num then x else m) y ys)
  end.

(** [np.max(scores)]. *)
Definition np_max (scores : list num) : Result num :=
  match scores with
  | [] => Raise ValueError
  | y :: ys => Ok (foldl (fun m x => if (m <=? x)%num then x else m) y ys)
  end.
End Reductions.

(** ** Collaborators outside the repository *)

(** What [model_system.py] imports from the optimisation library
    ([Space], [space_factory], [expected_minimum]) and what it calls on a
    [Space] ([n_dims], [lhs]).  [lhs] and [expected_minimum] are
    computations: either may read and advance the external random state
    ([expected_minimum] restarts its search from random points) and
    either may raise. *)
Class Optimizer (num Point Rng : Type) : Type := {
  (** a list of dimension definitions or a [Space] object *)
  SpaceLike : Type;
  Space : Type;
  OptimizeResult : Type;
  space_factory : SpaceLike -> Space;
  n_dims : Space -> nat;
  lhs : Space -> nat -> M Rng (list Point);
  expected_minimum : OptimizeResult -> M Rng (Point * num)
}.

(** ** Noise models *)

Section NoiseModels.
Variables num Point Rng : Type.
Context `{Scalar num}.

(** A draw from a zero-mean normal distribution of the given spread
    (the statistical sampling primitive, external). *)
Variable normal : num -> M Rng num.

(** Modelled from the spec: the [NoiseModel] family of
    [noise_models.py], which is not among the sources: the four concrete
    variants of the spec's data model, each owning what the spec says it
    owns.  [CustomNoise] stands for any other subclass a caller may
    define and hand to [ModelSystem]; it brings its own methods. *)
Inductive NoiseModel : Type :=
| ZeroNoise
| AdditiveNoise (noise_dist : M Rng num)
| MultiplicativeNoise (noise_dist : M Rng num)
| DataDependentNoise (noise_models : Point -> NoiseModel)
| CustomNoise (apply_method get_noise_method : Point -> num -> M Rng num).

(** Modelled from the spec: [NoiseModel.apply(context, signal)], per
    variant: identity; [signal + sample()]; [signal * (1 + sample())];
    [selector(context)] then delegation of [apply(context, signal)]. *)
Fixpoint apply (self : NoiseModel) (X : Point) (signal : num) : M Rng num :=
  match self with
  | ZeroNoise => ret signal
  | AdditiveNoise sample => n <- sample ;; ret (signal + n)%num
  | MultiplicativeNoise sample =>
      n <- sample ;; ret (signal * (num_one + n))%num
  | DataDependentNoise selector => apply (selector X) X signal
  | CustomNoise apply_method _ => apply_method X signal
  end.

(** [get_noise] of the built-in variants.  [ModelSystem.get_score] calls
    this method; [noise_models.py] is not among the sources and the spec
    does not describe it, so it is a parameter. *)
Variable builtin_get_noise : NoiseModel -> Point -> num -> M Rng num.

Definition get_noise (self : NoiseModel) (X : Point) (Y : num) : M Rng num :=
  match self with
  | CustomNoise _ get_noise_method => get_noise_method X Y
  | _ => builtin_get_noise self X Y
  end.

(** *** Construction *)

(** Modelled from the spec: the values a configuration mapping of
    section 4.2 can hold ([noise_models.py] is not among the sources). *)
Inductive Arg : Type :=
| ArgNone
| ArgNum (x : num)
| ArgStr (s : string)
| ArgSampler (f : M Rng num)
| ArgSelector (f : Point -> NoiseModel).

(** Modelled from the spec: the classes of [noise_models.py], which is
    not among the sources: the abstract base and its concrete
    variants. *)
Inductive NoiseClass : Type :=
| NoiseModelABC
| ZeroNoiseClass
| AdditiveNoiseClass
| MultiplicativeNoiseClass
| DataDependentNoiseClass.

(** Modelled from the spec: the sampling function a variant owns: the
    caller's [noise_dist] when supplied, else a zero-mean normal draw
    whose spread is the caller's [noise_size] or the variant's default.
    Malformed configuration (an unknown key, a non-callable noise
    source, a non-numeric size) is a construction-time
    [ConfigurationError]. *)
Definition owned_sampler (default_size : num) (kw : gmap string Arg)
  : Result (M Rng num) :=
  if decide (dom kw ⊆ ({["noise_dist"; "noise_size"]} : gset string)) then
    match kw !! "noise_dist", kw !! "noise_size" with
    | Some (ArgSampler f), None => Ok f
    | Some (ArgSampler f), Some (ArgNum _) => Ok f
    | None, Some (ArgNum size) => Ok (normal size)
    | None, None => Ok (normal default_size)
    | _, _ => Raise ConfigurationError
    end
  else Raise ConfigurationError.

(** Modelled from the spec: calling a class of [noise_models.py] with
    keyword arguments.  The abstract base is not constructible; Additive
    defaults to spread 1 and Multiplicative to relative spread 0.01;
    Zero is stateless; DataDependent owns its selector. *)
Definition construct (cls : NoiseClass) (kw : gmap string Arg)
  : Result NoiseModel :=
  match cls with
  | NoiseModelABC => Raise InstantiationError
  | ZeroNoiseClass =>
      if decide (kw = ∅) then Ok ZeroNoise else Raise ConfigurationError
  | AdditiveNoiseClass =>
      match owned_sampler num_one kw with
      | Ok f => Ok (AdditiveNoise f)
      | Raise e => Raise e
      end
  | MultiplicativeNoiseClass =>
      match owned_sampler num_centi kw with
      | Ok f => Ok (MultiplicativeNoise f)
      | Raise e => Raise e
      end
  | DataDependentNoiseClass =>
      if decide (dom kw ⊆ ({["noise_models"]} : gset string)) then
        match kw !! "noise_models" with
        | Some (ArgSelector f) => Ok (DataDependentNoise f)
        | _ => Raise ConfigurationError
        end
      else Raise ConfigurationError
  end.

(** *** The noise-spec parser *)

(** Modelled from the spec: what a caller may pass as [noise_model] to
    the parser of [noise_models.py]: an instance, a name, a
    configuration mapping, or something else (here [None], a number, a
    list). *)
Inductive NoiseSpec : Type :=
| SpecModel (nm : NoiseModel)
| SpecStr (name : string)
| SpecDict (d : gmap string Arg)
| SpecNone
| SpecNum (x : num)
| SpecList (l : list Arg).

(** Modelled from the spec: the recognised model type names. *)
Definition class_of_name (name : string) : option NoiseClass :=
  if decide (name = "constant") then Some AdditiveNoiseClass
  else if decide (name = "proportional") then Some MultiplicativeNoiseClass
  else if decide (name = "zero") then Some ZeroNoiseClass
  else None.

(** Modelled from the spec: [parse_noise_model(spec)] of
    [noise_models.py] (section 4.2 of the spec). *)
Definition parse_noise_model (spec : NoiseSpec) : Result NoiseModel :=
  match spec with
  | SpecModel nm => Ok nm
  | SpecStr name =>
      match class_of_name name with
      | Some cls => construct cls ∅
      | None => Raise ConfigurationError
      end
  | SpecDict d =>
      match d !! "model_type" with
      | Some (ArgStr name) =>
          match class_of_name name with
          | Some cls => construct cls (delete "model_type" d)
          | None => Raise ConfigurationError
          end
      | _ => Raise ConfigurationError
      end
  | SpecNone | SpecNum _ | SpecList _ => Raise ConfigurationError
  end.
End NoiseModels.

Arguments ZeroNoise {num Point Rng}.
Arguments AdditiveNoise {num Point Rng} noise_dist.
Arguments MultiplicativeNoise {num Point Rng} noise_dist.
Arguments DataDependentNoise {num Point Rng} noise_models.
Arguments CustomNoise {num Point Rng} apply_method get_noise_method.
Arguments apply {num Point Rng _} self X signal.
Arguments get_noise {num Point Rng} builtin_get_noise self X Y.
Arguments ArgNone {num Point Rng}.
Arguments ArgNum {num Point Rng} x.
Arguments ArgStr {num Point Rng} s.
Arguments ArgSampler {num Point Rng} f.
Arguments ArgSelector {num Point Rng} f.
Arguments owned_sampler {num Point Rng} normal default_size kw.
Arguments construct {num Point Rng _} normal cls kw.
Arguments SpecModel {num Point Rng} nm.
Arguments SpecStr {num Point Rng} name.
Arguments SpecDict {num Point Rng} d.
Arguments SpecNone {num Point Rng}.
Arguments SpecNum {num Point Rng} x.
Arguments SpecList {num Point Rng} l.
Arguments parse_noise_model {num Point Rng _} normal spec.

(** ** [ModelSystem] *)

Section ModelSystem.
Variables num Point Rng : Type.
Context `{Scalar num} `{Optimizer num Point Rng}.
Variable normal : num -> M Rng num.
Variable builtin_get_noise :
  NoiseModel num Point Rng -> Point -> num -> M Rng num.

(** The attributes [__init__] sets on [self]. *)
Record ModelSystem : Type := {
  score : Point -> num;
  space : Space;
  noise_model : NoiseModel num Point Rng;
  true_min : num;
  true_max : num
}.

(** [ModelSystem.__init__]; [None] is the default of [true_min] and
    [true_max]. *)
Definition init (score : Point -> num) (space : SpaceLike)
    (noise_model : NoiseSpec num Point Rng) (true_min true_max : option num)
  : M Rng ModelSystem :=
  let self_score := score in
  let self_space := space_factory space in
  self_noise_model <- lift (parse_noise_model normal noise_model) ;;
  true_min <-
    match true_min with
    | None =>
        let ndims := n_dims self_space in
        points <- lhs self_space (ndims * 10) ;;
        let scores := map score points in
        lift (np_min scores)
    | Some true_min => ret true_min
    end ;;
  let self_true_min := true_min in
  true_max <-
    match true_max with
    | None =>
        let ndims := n_dims self_space in
        points <- lhs self_space (ndims * 10) ;;
        let scores := map score points in
        lift (np_max scores)
    | Some true_max => ret true_max
    end ;;
  let self_true_max := true_max in
  ret {| score := self_score; space := self_space;
         noise_model := self_noise_model;
         true_min := self_true_min; true_max := self_true_max |}.

(** [ModelSystem.result_loss]. *)
Definition result_loss (self : ModelSystem) (result : OptimizeResult)
  : M Rng num :=
  located <- expected_minimum result ;;
  let '(model_x, _) := located in
  let loss := (score self model_x - true_min self)%num in
  ret loss.

(** [ModelSystem.get_score]. *)
Definition get_score (self : ModelSystem) (X : Point) : M Rng num :=
  let Y := score self X in
  noise <- get_noise builtin_get_noise (noise_model self) X Y ;;
  ret (Y + noise)%num.

(** The object [self] with its [noise_model] attribute rebound. *)
Definition with_noise_model (self : ModelSystem)
    (nm : NoiseModel num Point Rng) : ModelSystem :=
  {| score := score self; space := space self; noise_model := nm;
     true_min := true_min self; true_max := true_max self |}.

(** [ModelSystem.set_noise_model]: the outcome of the call and the
    object afterwards.  When the parser raises, the assignment is not
    reached. *)
Definition set_noise_model (self : ModelSystem)
    (noise_model : NoiseSpec num Point Rng) : Result unit * ModelSystem :=
  match parse_noise_model normal noise_model with
  | Ok nm => (Ok tt, with_noise_model self nm)
  | Raise e => (Raise e, self)
  end.
End ModelSystem.

Arguments ModelSystem num Point Rng {_}.
Arguments score {num Point Rng _} m.
Arguments space {num Point Rng _} m.
Arguments noise_model {num Point Rng _} m.
Arguments true_min {num Point Rng _} m.
Arguments true_max {num Point Rng _} m.
Arguments init {num Point Rng _ _} normal score space noise_model
  true_min true_max.
Arguments result_loss {num Point Rng _ _} self result.
Arguments get_score {num Point Rng _ _} builtin_get_noise self X.
Arguments with_noise_model {num Point Rng _} self nm.
Arguments set_noise_model {num Point Rng _ _} normal self noise_model.

(** ** Words of the specification, for comparison with the code *)

Section SpecWords.
Context {num Point Rng : Type} `{Scalar num} `{Optimizer num Point Rng}.

(** [m] is a least element of [l]. *)
Definition least_of (m : num) (l : list num) : Prop :=
  m ∈ l /\ Forall (fun y => (m <=? y)%num = true) l.

(** [m] is a greatest element of [l]. *)
Definition greatest_of (m : num) (l : list num) : Prop :=
  m ∈ l /\ Forall (fun y => (y <=? m)%num = true) l.

(** The sampling step for one bound: nothing is drawn for a bound the
    caller supplies; for an absent one, [10 * n_dims] points are asked
    of the Latin hypercube sampler, which returns [pts] and leaves the
    random state at [rng']. *)
Definition drawn (S : Space) (given : option num) (rng : Rng)
    (pts : list Point) (rng' : Rng) : Prop :=
  match given with
  | Some _ => rng' = rng
  | None => lhs S (10 * n_dims S) rng = (Ok pts, rng') /\ pts <> []
  end.

(** What the stored bound must be: the caller's value, or the extremum
    (chosen by [extremum_of]) of the noiseless scores of the sample. *)
Definition bound_ok (extremum_of : num -> list num -> Prop)
    (score : Point -> num) (given : option num) (pts : list Point)
    (stored : num) : Prop :=
  match given with
  | Some v => stored = v
  | None => extremum_of stored (map score pts)
  end.
End SpecWords.

(** ** A concrete instance: exact rationals on unit hypercubes *)

Module Rational.
#[export] Instance Q_Scalar : Scalar Q := {|
  num_add := Qplus; num_sub := Qminus; num_mul := Qmult;
  num_one := 1%Q; num_centi := (1 # 100)%Q; num_leb := Qle_bool
|}.

(** A point is its list of coordinates; the random state is a counter. *)
Definition Point : Type := list Q.
Definition Rng : Type := nat.

(** Latin hypercube sampling of [n] points in the unit cube of
    dimension [d], as the library's [Space.lhs] does it with its fixed
    default seed: on every axis each of the [n] strata [[i/n, (i+1)/n)]
    is hit at its midpoint, the same points come back at every call, and
    the external random state is not touched.  (The library also
    shuffles the strata of each axis, always in the same way; the order
    of the points plays no part below.) *)
Definition unit_lhs (d n : nat) : M Rng (list Point) :=
  fun rng =>
    (Ok (map (fun i : nat =>
                replicate d
                  (Qred ((inject_Z (Z.of_nat i) + (1 # 2))
                         / inject_Z (Z.of_nat n))))
             (seq 0 n)),
     rng).

(** An optimizer result: the best point evaluated and the fitted
    surrogate of the score. *)
Record Fitted : Type := {
  res_x : Point;
  surrogate : Point -> Q
}.

(** The point of the unit interval a random start lands on at a given
    random state: [1/2] at state 0, [1/3] at state 1, and so on. *)
Definition jitter (rng : Rng) : Q := 1 # Pos.of_nat (rng + 2).

(** The 20 random starts [expected_minimum] draws by default. *)
Definition random_starts (rng : Rng) : list Point :=
  map (fun k : nat => [jitter (rng + k)]) (seq 0 20).

Definition best_of (model : Point -> Q) (x0 : Point) (xs : list Point)
  : Point :=
  foldl (fun best x => if Qle_bool (model best) (model x) then best else x)
    x0 xs.

(** A stand-in for the library's [expected_minimum]: like it, it draws
    20 random starts from the external random state and returns the best
    location of the surrogate among them and the result's own best point
    (the local descent the library runs from each start is left out). *)
Definition unit_expected_minimum (res : Fitted) : M Rng (Point * Q) :=
  fun rng =>
    let best := best_of (surrogate res) (res_x res) (random_starts rng) in
    (Ok (best, surrogate res best), (rng + 20)%nat).

(** A space is given by its number of unit-interval dimensions. *)
#[export] Instance unit_cube : Optimizer Q Point Rng := {|
  SpaceLike := nat;
  Space := nat;
  OptimizeResult := Fitted;
  space_factory := fun d => d;
  n_dims := fun d => d;
  lhs := unit_lhs;
  expected_minimum := unit_expected_minimum
|}.

(** A stand-in for the normal draw: plus or minus one spread. *)
Definition pseudo_normal (spread : Q) : M Rng Q :=
  fun rng => (Ok (spread * (if Nat.even rng then 1 else -1))%Q, S rng).

(** Score functions. *)
Definition first_coord (p : Point) : Q :=
  match p with
  | x :: _ => x
  | [] => 0
  end.

(** A square wave of period [1/10] along the first axis. *)
Definition square_wave (p : Point) : Q :=
  let t := (10 * first_coord p)%Q in
  if Qle_bool (5 # 12) (t - inject_Z (Qfloor t)) then 1 else 0.

(** A caller-defined noise model whose [apply] leaves the signal alone
    and whose [get_noise] reports one unit of noise. *)
Definition unit_offset : NoiseModel Q Point Rng :=
  CustomNoise (fun _ signal => ret signal) (fun _ _ => ret 1%Q).

Definition offset_system : ModelSystem Q Point Rng := {|
  score := first_coord; space := 1%nat; noise_model := unit_offset;
  true_min := 0%Q; true_max := 1%Q
|}.

(** A caller-defined noise model whose two methods agree: [apply] adds
    the unit of noise that [get_noise] reports. *)
Definition unit_shift : NoiseModel Q Point Rng :=
  CustomNoise (fun _ signal => ret (signal + 1)%Q) (fun _ _ => ret 1%Q).

Definition shift_system : ModelSystem Q Point Rng := {|
  score := first_coord; space := 1%nat; noise_model := unit_shift;
  true_min := 0%Q; true_max := 1%Q
|}.

(** A stand-in for [get_noise] of the built-in variants in the runs
    below (what the variant's [apply] makes of a zero signal).  The runs
    that use it hold caller-defined models, which never reach it. *)
Definition zero_signal_noise (nm : NoiseModel Q Point Rng) (X : Point)
    (Y : Q) : M Rng Q :=
  apply nm X 0%Q.

(** The ten points sampled on one axis. *)
Definition first_sample : list Point :=
  [[1 # 20]; [3 # 20]; [1 # 4]; [7 # 20]; [9 # 20];
   [11 # 20]; [13 # 20]; [3 # 4]; [17 # 20]; [19 # 20]].

(** The systems the constructor is expected to build in the runs below. *)
Definition line_system : ModelSystem Q Point Rng := {|
  score := first_coord; space := 1%nat; noise_model := ZeroNoise;
  true_min := 1 # 20; true_max := 19 # 20
|}.



(** A result whose own best point is the true minimiser [0], and one
    whose best point is [1/2]; the surrogate of both is the score. *)
Definition found_zero : Fitted := {|
  res_x := [0%Q]; surrogate := first_coord
|}.

Definition found_half : Fitted := {|
  res_x := [1 # 2]; surrogate := first_coord
|}.

(** A result whose surrogate is flat, so that the expected minimum stays
    at the result's own best point, a sampled one. *)
Definition found_quarter : Fitted := {|
  res_x := [1 # 4]; surrogate := fun _ => 0%Q
|}.

End Rational.

(** ** Further definitions, for the properties beyond the claims *)

Section Estimation.
Context {num Point Rng : Type} `{Scalar num} `{Optimizer num Point Rng}.

(** The block [__init__] runs for one bound (lines 47-51 with [np.min],
    lines 53-57 with [np.max]): a supplied bound is returned as it is; an
    absent one is estimated from a fresh Latin hypercube sample. *)
Definition estimate (reduce : list num -> Result num) (score : Point -> num)
    (self_space : Space) (given : option num) : M Rng num :=
  match given with
  | None =>
      let ndims := n_dims self_space in
      points <- lhs self_space (ndims * 10) ;;
      let scores := map score points in
      lift (reduce scores)
  | Some bound => ret bound
  end.

(** What ends up stored for one bound: the caller's value, or the outcome
    of the reduction over the scores of the sample [pts]. *)
Definition stored_bound (reduce : list num -> Result num)
    (score : Point -> num) (given : option num) (pts : list Point)
    (stored : num) : Prop :=
  match given with
  | Some v => stored = v
  | None => reduce (map score pts) = Ok stored
  end.

(** The exception a sampling outcome leads to, if any: an empty sample
    makes the numpy reduction raise [ValueError]; an exception of the
    sampler is passed on. *)
Definition sample_failure (outcome : Result (list Point)) (e : Error) : Prop :=
  match outcome with
  | Ok [] => e = ValueError
  | Ok (_ :: _) => False
  | Raise e' => e = e'
  end.
End Estimation.

Section Comprehension.
Context {num Point Rng : Type} `{Scalar num}.

(** [[noise_model.apply(X, signal) for signal in signals]], the
    comprehension every test of [test_noise_model.py] runs. *)
Definition apply_each (noise_model : NoiseModel num Point Rng) (X : Point)
    (signals : list num) : M Rng (list num) :=
  mapM (fun signal => apply noise_model X signal) signals.

(** The variant that perturbs the signal at context [X]: the model
    itself, or the one its selectors lead to. *)
Fixpoint resolve (nm : NoiseModel num Point Rng) (X : Point)
  : NoiseModel num Point Rng :=
  match nm with
  | DataDependentNoise selector => resolve (selector X) X
  | _ => nm
  end.
End Comprehension.

Module Selection.
Import Rational.

(** A noise model that picks its variant from the first coordinate of
    the context: no noise at or below 0, unit additive noise above. *)
Definition by_first_coord : NoiseModel Q Point Rng :=
  DataDependentNoise (fun X =>
    if Qle_bool (first_coord X) 0 then ZeroNoise
    else AdditiveNoise (pseudo_normal 1)).
End Selection.

(** ** Properties of the reductions *)

Section ReductionFacts.
Context {num : Type} `{Scalar num}.
Hypothesis leb_total : forall x y : num,
  (x <=? y)%num = true \/ (y <=? x)%num = true.
Hypothesis leb_trans : forall x y z : num,
  (x <=? y)%num = true -> (y <=? z)%num = true -> (x <=? z)%num = true.

Lemma leb_refl (x : num) : (x <=? x)%num = true.
Proof. destruct (leb_total x x); assumption. Qed.

Lemma foldl_min_inv (ys : list num) (y : num) :
  let r := foldl (fun m x => if (x <=? m)%num then x else m) y ys in
  r ∈ y :: ys /\ (r <=? y)%num = true
  /\ Forall (fun z => (r <=? z)%num = true) ys.
Proof.
  revert y. induction ys as [|x ys IH]; intros y; simpl.
  - split; [left|split; [apply leb_refl|constructor]].
  - destruct (x <=? y)%num eqn:Hxy.
    + destruct (IH x) as (Hin & Hle & Hall).
      split; [right; exact Hin|].
      split; [eapply leb_trans; eassumption|].
      constructor; assumption.
    + destruct (IH y) as (Hin & Hle & Hall).
      assert (Hyx : (y <=? x)%num = true).
      { destruct (leb_total x y) as [Hc|Hc]; [congruence|exact Hc]. }
      split.
      { apply elem_of_cons in Hin as [->|Hin];
          [left|right; right; exact Hin]. }
      split; [exact Hle|].
      constructor; [eapply leb_trans; eassumption|exact Hall].
Qed.

Lemma foldl_max_inv (ys : list num) (y : num) :
  let r := foldl (fun m x => if (m <=? x)%num then x else m) y ys in
  r ∈ y :: ys /\ (y <=? r)%num = true
  /\ Forall (fun z => (z <=? r)%num = true) ys.
Proof.
  revert y. induction ys as [|x ys IH]; intros y; simpl.
  - split; [left|split; [apply leb_refl|constructor]].
  - destruct (y <=? x)%num eqn:Hyx.
    + destruct (IH x) as (Hin & Hle & Hall).
      split; [right; exact Hin|].
      split; [eapply leb_trans; eassumption|].
      constructor; assumption.
    + destruct (IH y) as (Hin & Hle & Hall).
      assert (Hxy : (x <=? y)%num = true).
      { destruct (leb_total x y) as [Hc|Hc]; [exact Hc|congruence]. }
      split.
      { apply elem_of_cons in Hin as [->|Hin];
          [left|right; right; exact Hin]. }
      split; [exact Hle|].
      constructor; [eapply leb_trans; eassumption|exact Hall].
Qed.

Lemma np_min_least (l : list num) (m : num) :
  np_min l = Ok m -> least_of m l.
Proof.
  destruct l as [|y ys]; simpl; [discriminate|].
  intros [= <-]. destruct (foldl_min_inv ys y) as (Hin & Hle & Hall).
  split; [exact Hin|constructor; assumption].
Qed.

Lemma np_max_greatest (l : list num) (m : num) :
  np_max l = Ok m -> greatest_of m l.
Proof.
  destruct l as [|y ys]; simpl; [discriminate|].
  intros [= <-]. destruct (foldl_max_inv ys y) as (Hin & Hle & Hall).
  split; [exact Hin|constructor; assumption].
Qed.
End ReductionFacts.

Lemma np_min_nonempty {num} `{Scalar num} (l : list num) :
  l <> [] -> exists m, np_min l = Ok m.
Proof. destruct l; [congruence|]. intros _. eexists. reflexivity. Qed.

Lemma np_max_nonempty {num} `{Scalar num} (l : list num) :
  l <> [] -> exists m, np_max l = Ok m.
Proof. destruct l; [congruence|]. intros _. eexists. reflexivity. Qed.

Lemma map_nonempty {A B} (f : A -> B) (l : list A) : l <> [] -> map f l <> [].
Proof. destruct l; [congruence|discriminate]. Qed.

(** ** The noise models and the parser *)

Section NoiseFacts.
Context {num Point Rng : Type} `{Scalar num}.
Variable normal : num -> M Rng num.

Lemma bind_ret_run {A B} (a : A) (k : A -> M Rng B) (rng : Rng) :
  (x <- ret a ;; k x) rng = k a rng.
Proof. reflexivity. Qed.

Lemma mapM_ext {A B} (f g : A -> M Rng B) (l : list A) :
  (forall a rng, f a rng = g a rng) ->
  forall rng, mapM f l rng = mapM g l rng.
Proof.
  intros Hfg. induction l as [|a l IH]; intros rng; simpl; [reflexivity|].
  unfold bind. rewrite Hfg. destruct (g a rng) as [[b|e] rng1]; [|reflexivity].
  rewrite IH. reflexivity.
Qed.

Lemma data_dependent_delegates (selector : Point -> NoiseModel num Point Rng)
    (X : Point) (signal : num) :
  apply (DataDependentNoise selector) X signal = apply (selector X) X signal.
Proof. reflexivity. Qed.

Lemma class_of_name_unknown (name : string) :
  name <> "constant" -> name <> "proportional" -> name <> "zero" ->
  class_of_name name = None.
Proof.
  intros H1 H2 H3. unfold class_of_name.
  repeat (case_decide; [congruence|]). reflexivity.
Qed.

(** C3. [parse_noise_model] hands an already-constructed NoiseModel back
    unchanged; turns the names "constant", "proportional" and "zero"
    into an Additive, a Multiplicative and a Zero model with default
    parameters; builds the variant named by the [model_type] key of a
    mapping, calling its constructor with the remaining keys; and raises
    ConfigurationError for an unrecognised name, for a mapping without a
    string [model_type], and for any other shape of specification. *)
Theorem parse_noise_model_spec :
  (forall nm : NoiseModel num Point Rng,
      parse_noise_model normal (SpecModel nm) = Ok nm)
  /\ parse_noise_model (Point := Point) normal (SpecStr "constant")
     = Ok (AdditiveNoise (normal num_one))
  /\ parse_noise_model (Point := Point) normal (SpecStr "proportional")
     = Ok (MultiplicativeNoise (normal num_centi))
  /\ parse_noise_model (Point := Point) normal (SpecStr "zero")
     = Ok ZeroNoise
  /\ (forall (d : gmap string (Arg num Point Rng)) (name : string),
        d !! "model_type" = Some (ArgStr name) ->
        parse_noise_model normal (SpecDict d) =
          if decide (name = "constant")
          then construct normal AdditiveNoiseClass (delete "model_type" d)
          else if decide (name = "proportional")
          then construct normal MultiplicativeNoiseClass
                 (delete "model_type" d)
          else if decide (name = "zero")
          then construct normal ZeroNoiseClass (delete "model_type" d)
          else Raise ConfigurationError)
  /\ (forall name : string,
        name <> "constant" -> name <> "proportional" -> name <> "zero" ->
        parse_noise_model (Point := Point) normal (SpecStr name)
        = Raise ConfigurationError)
  /\ (forall d : gmap string (Arg num Point Rng),
        (forall name, d !! "model_type" <> Some (ArgStr name)) ->
        parse_noise_model normal (SpecDict d) = Raise ConfigurationError)
  /\ parse_noise_model (Point := Point) normal SpecNone
     = Raise ConfigurationError
  /\ (forall x : num,
        parse_noise_model (Point := Point) normal (SpecNum x)
        = Raise ConfigurationError)
  /\ (forall l : list (Arg num Point Rng),
        parse_noise_model normal (SpecList l) = Raise ConfigurationError).
Proof.
  repeat split; try reflexivity.
  - intros d name Hd. simpl. rewrite Hd. unfold class_of_name.
    destruct (decide (name = "constant")); [reflexivity|].
    destruct (decide (name = "proportional")); [reflexivity|].
    destruct (decide (name = "zero")); reflexivity.
  - intros name H1 H2 H3. simpl.
    rewrite class_of_name_unknown by assumption. reflexivity.
  - intros d Hd. simpl.
    destruct (d !! "model_type") as [[| |name| |]|] eqn:E; try reflexivity.
    exfalso. exact (Hd name eq_refl).
Qed.

(** C5. Calling the abstract NoiseModel class itself, whatever the
    arguments, raises InstantiationError at once; the concrete variants
    never raise that error. *)
Theorem abstract_noise_model_not_constructible :
  forall (cls : NoiseClass) (kw : gmap string (Arg num Point Rng)),
    construct normal cls kw = Raise InstantiationError <->
    cls = NoiseModelABC.
Proof.
  intros cls kw. split.
  - destruct cls; simpl; try reflexivity.
    + case_decide; discriminate.
    + unfold owned_sampler. case_decide; [|discriminate].
      destruct (kw !! "noise_dist") as [[]|];
        destruct (kw !! "noise_size") as [[]|]; discriminate.
    + unfold owned_sampler. case_decide; [|discriminate].
      destruct (kw !! "noise_dist") as [[]|];
        destruct (kw !! "noise_size") as [[]|]; discriminate.
    + case_decide; [|discriminate].
      destruct (kw !! "noise_models") as [[]|]; discriminate.
  - intros ->. reflexivity.
Qed.

(** C7. With a sampler that constantly returns [m], as built by
    MultiplicativeNoise(noise_dist=lambda: m), apply(context, s) is
    s * (1 + m) for every signal and every context, and draws nothing. *)
Theorem multiplicative_constant_sampler :
  forall (m : num),
    construct (Point := Point) normal MultiplicativeNoiseClass
      {[ "noise_dist" := ArgSampler (ret m) ]}
    = Ok (MultiplicativeNoise (ret m))
    /\ forall (context : Point) (s : num) (rng : Rng),
        apply (MultiplicativeNoise (ret m)) context s rng
        = (Ok (s * (num_one + m))%num, rng).
Proof.
  intros m. split; [|reflexivity].
  vm_compute. reflexivity.
Qed.
End NoiseFacts.

(** ** [ModelSystem] *)

Section ModelSystemFacts.
Context {num Point Rng : Type} `{Scalar num} `{Optimizer num Point Rng}.
Variable normal : num -> M Rng num.
Variable builtin_get_noise :
  NoiseModel num Point Rng -> Point -> num -> M Rng num.

Lemma result_loss_run (self : ModelSystem num Point Rng)
    (result : OptimizeResult) (rng : Rng) :
  result_loss self result rng
  = match expected_minimum result rng with
    | (Ok located, rng') =>
        (Ok (score self located.1 - true_min self)%num, rng')
    | (Raise e, rng') => (Raise e, rng')
    end.
Proof.
  unfold result_loss, bind.
  destruct (expected_minimum result rng) as [[[model_x v]|e] rng'];
    reflexivity.
Qed.


(** C1 (as amended). [get_score(X)] evaluates the noiseless score [Y] at
    [X], asks the current noise model for [get_noise(X, Y)] and returns
    [Y] plus that noise (an exception of [get_noise] propagates); the
    result is [noise_model.apply(X, Y)] whenever that model's [apply]
    is [Y + get_noise(X, Y)]. *)
Theorem get_score_adds_get_noise :
  forall (self : ModelSystem num Point Rng) (X : Point) (rng : Rng),
    get_score builtin_get_noise self X rng
    = match get_noise builtin_get_noise (noise_model self) X
              (score self X) rng with
      | (Ok noise, rng') => (Ok (score self X + noise)%num, rng')
      | (Raise e, rng') => (Raise e, rng')
      end
    /\ ((forall r,
           apply (noise_model self) X (score self X) r
           = match get_noise builtin_get_noise (noise_model self) X
                   (score self X) r with
             | (Ok noise, r') => (Ok (score self X + noise)%num, r')
             | (Raise e, r') => (Raise e, r')
             end) ->
        get_score builtin_get_noise self X rng
        = apply (noise_model self) X (score self X) rng).
Proof.
  intros self X rng.
  assert (Hrun : get_score builtin_get_noise self X rng
    = match get_noise builtin_get_noise (noise_model self) X
              (score self X) rng with
      | (Ok noise, rng') => (Ok (score self X + noise)%num, rng')
      | (Raise e, rng') => (Raise e, rng')
      end).
  { unfold get_score, bind.
    destruct (get_noise _ _ _ _ rng) as [[noise|e] rng']; reflexivity. }
  split; [exact Hrun|].
  intros Hagree. rewrite Hrun, Hagree. reflexivity.
Qed.

(** C4. At construction a bound the caller supplies is stored as given
    and nothing is sampled for it; for each absent bound, [10 * n_dims]
    points are drawn from the normalised space by Latin hypercube
    sampling (first for [true_min], then afresh for [true_max]), the
    noiseless score is evaluated at each, and the least (for [true_min])
    or greatest (for [true_max]) of those scores is stored. *)
Theorem init_bounds :
  forall (leb_total : forall x y : num,
             (x <=? y)%num = true \/ (y <=? x)%num = true)
         (leb_trans : forall x y z : num,
             (x <=? y)%num = true -> (y <=? z)%num = true ->
             (x <=? z)%num = true)
         (f : Point -> num) (sp : SpaceLike)
         (spec : NoiseSpec num Point Rng) (nm : NoiseModel num Point Rng)
         (lo hi : option num) (pts1 pts2 : list Point) (rng rng1 rng2 : Rng),
    parse_noise_model normal spec = Ok nm ->
    drawn (space_factory sp) lo rng pts1 rng1 ->
    drawn (space_factory sp) hi rng1 pts2 rng2 ->
    exists ms,
      init normal f sp spec lo hi rng = (Ok ms, rng2)
      /\ score ms = f
      /\ space ms = space_factory sp
      /\ noise_model ms = nm
      /\ bound_ok least_of f lo pts1 (true_min ms)
      /\ bound_ok greatest_of f hi pts2 (true_max ms).
Proof.
  intros leb_total leb_trans f sp spec nm lo hi pts1 pts2 rng rng1 rng2
    Hparse Hlo Hhi.
  unfold init, bind, lift. rewrite Hparse.
  assert (Hmin : exists m,
    match lo with
    | Some true_min => ret true_min
    | None =>
        fun r =>
          match lhs (space_factory sp) (n_dims (space_factory sp) * 10) r with
          | (Ok pts, r') => (np_min (map f pts), r')
          | (Raise e, r') => (Raise e, r')
          end
    end rng = (Ok m, rng1) /\ bound_ok least_of f lo pts1 m).
  { destruct lo as [a|]; unfold drawn, bound_ok in Hlo |- *.
    - subst rng1. exists a. split; reflexivity.
    - destruct Hlo as [Hdraw Hne].
      rewrite Nat.mul_comm, Hdraw.
      destruct (np_min_nonempty (map f pts1)) as [m Hm];
        [apply map_nonempty; exact Hne|].
      exists m. split; [rewrite Hm; reflexivity|].
      eapply np_min_least; eassumption. }
  assert (Hmax : exists m,
    match hi with
    | Some true_max => ret true_max
    | None =>
        fun r =>
          match lhs (space_factory sp) (n_dims (space_factory sp) * 10) r with
          | (Ok pts, r') => (np_max (map f pts), r')
          | (Raise e, r') => (Raise e, r')
          end
    end rng1 = (Ok m, rng2) /\ bound_ok greatest_of f hi pts2 m).
  { destruct hi as [b|]; unfold drawn, bound_ok in Hhi |- *.
    - subst rng2. exists b. split; reflexivity.
    - destruct Hhi as [Hdraw Hne].
      rewrite Nat.mul_comm, Hdraw.
      destruct (np_max_nonempty (map f pts2)) as [m Hm];
        [apply map_nonempty; exact Hne|].
      exists m. split; [rewrite Hm; reflexivity|].
      eapply np_max_greatest; eassumption. }
  destruct Hmin as (m1 & Hrun1 & Hok1). destruct Hmax as (m2 & Hrun2 & Hok2).
  exists {| score := f; space := space_factory sp;
            noise_model := nm; true_min := m1; true_max := m2 |}.
  split; [|repeat split; assumption].
  destruct lo, hi; unfold ret in *; cbv beta iota in *.
  - injection Hrun1 as -> ->. injection Hrun2 as -> ->. reflexivity.
  - injection Hrun1 as -> ->. rewrite Hrun2. reflexivity.
  - rewrite Hrun1. injection Hrun2 as -> ->. reflexivity.
  - rewrite Hrun1, Hrun2. reflexivity.
Qed.
End ModelSystemFacts.

Section NoiseSwap.
Context {num Point Rng : Type} `{Scalar num} `{Optimizer num Point Rng}.
Variable normal : num -> M Rng num.

(** C6. [set_noise_model(spec)] parses [spec] again and rebinds the
    stored noise model to the outcome; the score function, the space
    and both bounds are those of before (nothing is sampled, so no bound
    is recomputed).  When the parser raises, the exception propagates
    and the object is left as it was. *)
Theorem set_noise_model_frame :
  forall (self : ModelSystem num Point Rng) (spec : NoiseSpec num Point Rng),
    let '(outcome, self') := set_noise_model normal self spec in
    score self' = score self
    /\ space self' = space self
    /\ true_min self' = true_min self
    /\ true_max self' = true_max self
    /\ match parse_noise_model normal spec with
       | Ok nm => outcome = Ok tt /\ noise_model self' = nm
       | Raise e => outcome = Raise e /\ self' = self
       end.
Proof.
  intros self spec. unfold set_noise_model.
  destruct (parse_noise_model normal spec) as [nm|e]; simpl;
    repeat split; reflexivity.
Qed.

(** C10 (as amended). [result_loss] never consults the installed noise
    model: run from the same random state, two model systems that differ
    only in their noise model give the same outcome on every result and
    leave the same random state, and so does the system after any
    [set_noise_model] call; the random state [result_loss] leaves is the
    one [expected_minimum] left, so it draws nothing of its own. *)
Theorem result_loss_ignores_noise_model :
  forall (self : ModelSystem num Point Rng)
         (nm1 nm2 : NoiseModel num Point Rng)
         (spec : NoiseSpec num Point Rng)
         (result : OptimizeResult) (rng : Rng),
    result_loss (with_noise_model self nm1) result rng
    = result_loss (with_noise_model self nm2) result rng
    /\ result_loss (with_noise_model self nm1) result rng
       = result_loss self result rng
    /\ result_loss (set_noise_model normal self spec).2 result rng
       = result_loss self result rng
    /\ (result_loss self result rng).2 = (expected_minimum result rng).2.
Proof.
  intros self nm1 nm2 spec result rng.
  rewrite !result_loss_run.
  split; [reflexivity|]. split; [reflexivity|]. split.
  - unfold set_noise_model.
    destruct (parse_noise_model normal spec); reflexivity.
  - destruct (expected_minimum result rng) as [[located|e] rng'];
      reflexivity.
Qed.
End NoiseSwap.

(** C8. DataDependentNoise evaluates its selector at the context of each
    call and lets the selected model perturb the signal: a run of calls
    behaves as the same run made directly on the models selected call by
    call; and with the selector of the test,
    [lambda X: AdditiveNoise(noise_dist=lambda: X)], on scalar contexts,
    apply(X, s) is s + X. *)
Theorem data_dependent_noise_spec :
  forall (num Rng : Type) (HS : Scalar num) (normal : num -> M Rng num),
    (forall (Point : Type) (selector : Point -> NoiseModel num Point Rng),
        construct normal DataDependentNoiseClass
          {[ "noise_models" := ArgSelector selector ]}
        = Ok (DataDependentNoise selector)
        /\ (forall (X : Point) (s : num),
              apply (DataDependentNoise selector) X s = apply (selector X) X s)
        /\ forall (calls : list (Point * num)) (rng : Rng),
            mapM (fun c => apply (DataDependentNoise selector) c.1 c.2)
              calls rng
            = mapM (fun c => apply (selector c.1) c.1 c.2) calls rng)
    /\ forall (X s : num) (rng : Rng),
        apply (DataDependentNoise (fun X => AdditiveNoise (ret X))) X s rng
        = (Ok (s + X)%num, rng).
Proof.
  intros num Rng HS normal. split; [|reflexivity].
  intros Point selector. split; [vm_compute; reflexivity|].
  split; [reflexivity|].
  intros calls rng. apply mapM_ext. reflexivity.
Qed.

(** ** Runs on the rational instance *)

Import Rational.

Lemma Qle_bool_total (x y : Q) : Qle_bool x y = true \/ Qle_bool y x = true.
Proof.
  destruct (Qlt_le_dec x y) as [Hlt|Hle].
  - left. apply Qle_bool_iff, Qlt_le_weak, Hlt.
  - right. apply Qle_bool_iff, Hle.
Qed.

Lemma Qle_bool_trans (x y z : Q) :
  Qle_bool x y = true -> Qle_bool y z = true -> Qle_bool x z = true.
Proof.
  rewrite !Qle_bool_iff. apply Qle_trans.
Qed.

Lemma unit_lhs_first (rng : Rng) :
  unit_lhs 1 10 rng = (Ok first_sample, rng).
Proof. vm_compute. reflexivity. Qed.

Example square_wave_first : map square_wave first_sample = replicate 10 1%Q.
Proof. vm_compute. reflexivity. Qed.

(** C1, as stated, fails: on a model system holding a noise model whose
    [apply] returns the signal unchanged while its [get_noise] reports 1,
    [get_score([1/2])] is [1/2 + 1] and [apply([1/2], 1/2)] is [1/2]. *)
Lemma get_score_is_not_apply :
  get_score zero_signal_noise offset_system [1 # 2] 0%nat
  <> apply (noise_model offset_system) [1 # 2]
       (score offset_system [1 # 2]) 0%nat.
Proof. vm_compute. discriminate. Qed.

Lemma get_score_adds_get_noise_witness :
  get_score zero_signal_noise shift_system [1 # 2] 0%nat
  = apply (noise_model shift_system) [1 # 2] (score shift_system [1 # 2]) 0%nat.
Proof.
  apply (proj2 (get_score_adds_get_noise zero_signal_noise
                  shift_system [1 # 2] 0%nat)).
  intros r. reflexivity.
Defined.

(** C2. [result_loss(result)] is the noiseless score at the expected
    minimum location extracted from [result] minus the stored
    [true_min], with no noise applied (an exception of the extraction
    propagates).  The loss can be negative: with the score [x] on the
    unit interval, the bound estimated at construction is [1/20] while
    the score at [0] is [0], so a result whose expected minimum is [0]
    has loss [-1/20]. *)
Theorem result_loss_spec :
  (forall (num Point Rng : Type) (HS : Scalar num)
          (HO : Optimizer num Point Rng)
          (self : ModelSystem num Point Rng) (result : OptimizeResult)
          (rng : Rng),
      result_loss self result rng
      = match expected_minimum result rng with
        | (Ok located, rng') =>
            (Ok (score self located.1 - true_min self)%num, rng')
        | (Raise e, rng') => (Raise e, rng')
        end)
  /\ init pseudo_normal first_coord 1%nat (SpecStr "zero") None None 0%nat
     = (Ok line_system, 0%nat)
  /\ true_min line_system = 1 # 20
  /\ expected_minimum found_zero 0%nat = (Ok ([0%Q], 0%Q), 20%nat)
  /\ result_loss line_system found_zero 0%nat = (Ok (-1 # 20), 20%nat)
  /\ (-1 # 20 < 0)%Q.
Proof.
  split; [intros; apply result_loss_run|].
  split; [reflexivity|].
  split; [reflexivity|].
  split; [vm_compute; reflexivity|].
  split; [vm_compute; reflexivity|].
  reflexivity.
Qed.

Lemma parse_noise_model_spec_witness :
  parse_noise_model (Point := Point) pseudo_normal
    (SpecDict {[ "model_type" := ArgStr "constant";
                 "noise_size" := ArgNum (5 : Q) ]})
  = Ok (AdditiveNoise (pseudo_normal 5)).
Proof.
  destruct (parse_noise_model_spec (Point := Point) pseudo_normal)
    as (_ & _ & _ & _ & Hdict & _).
  rewrite (Hdict _ "constant"); [|vm_compute; reflexivity].
  vm_compute. reflexivity.
Defined.

Lemma abstract_noise_model_not_constructible_witness :
  construct (Point := Point) pseudo_normal NoiseModelABC ∅
  = Raise InstantiationError.
Proof.
  apply (proj2 (abstract_noise_model_not_constructible pseudo_normal
                  NoiseModelABC ∅)).
  reflexivity.
Defined.

Lemma init_bounds_witness :
  parse_noise_model (Point := Point) pseudo_normal (SpecStr "zero")
  = Ok ZeroNoise
  /\ drawn 1%nat None 0%nat first_sample 0%nat
  /\ drawn 1%nat (Some 1%Q) 0%nat [] 0%nat
  /\ exists ms : ModelSystem Q Point Rng,
      init pseudo_normal first_coord 1%nat (SpecStr "zero") None (Some 1%Q)
        0%nat = (Ok ms, 0%nat)
      /\ score ms = first_coord
      /\ space ms = 1%nat
      /\ noise_model ms = ZeroNoise
      /\ least_of (true_min ms) (map first_coord first_sample)
      /\ true_max ms = 1%Q.
Proof.
  assert (Hparse : parse_noise_model (Point := Point) pseudo_normal
                     (SpecStr "zero") = Ok ZeroNoise) by reflexivity.
  assert (Hlo : drawn 1%nat None 0%nat first_sample 0%nat).
  { split; [vm_compute; reflexivity|discriminate]. }
  assert (Hhi : drawn 1%nat (Some 1%Q) 0%nat [] 0%nat) by reflexivity.
  split; [exact Hparse|]. split; [exact Hlo|]. split; [exact Hhi|].
  exact (init_bounds pseudo_normal Qle_bool_total Qle_bool_trans
           first_coord 1%nat (SpecStr "zero") ZeroNoise None (Some 1%Q)
           first_sample [] 0%nat 0%nat 0%nat Hparse Hlo Hhi).
Defined.

(** ** Construction: outcomes beyond the success path *)

Section ConstructionFacts.
Context {num Point Rng : Type} `{Scalar num} `{Optimizer num Point Rng}.
Variable normal : num -> M Rng num.

Lemma estimate_absent (reduce : list num -> Result num) (f : Point -> num)
    (S : Space) (rng : Rng) :
  estimate reduce f S None rng
  = match lhs S (n_dims S * 10) rng with
    | (Ok pts, rng1) => (reduce (map f pts), rng1)
    | (Raise e, rng1) => (Raise e, rng1)
    end.
Proof.
  unfold estimate, bind, lift.
  destruct (lhs S (n_dims S * 10) rng) as [[pts|e] rng1]; reflexivity.
Qed.

Lemma init_run (f : Point -> num) (sp : SpaceLike)
    (spec : NoiseSpec num Point Rng) (lo hi : option num) (rng : Rng) :
  init normal f sp spec lo hi rng
  = match parse_noise_model normal spec with
    | Raise e => (Raise e, rng)
    | Ok nm =>
        match estimate np_min f (space_factory sp) lo rng with
        | (Raise e, rng1) => (Raise e, rng1)
        | (Ok a, rng1) =>
            match estimate np_max f (space_factory sp) hi rng1 with
            | (Raise e, rng2) => (Raise e, rng2)
            | (Ok b, rng2) =>
                (Ok {| score := f; space := space_factory sp;
                       noise_model := nm; true_min := a; true_max := b |},
                 rng2)
            end
        end
    end.
Proof.
  unfold init, bind, lift.
  destruct (parse_noise_model normal spec) as [nm|e]; [|reflexivity].
  change (match lo with
          | Some true_min => ret true_min
          | None => _
          end rng)
    with (estimate np_min f (space_factory sp) lo rng).
  destruct (estimate np_min f (space_factory sp) lo rng) as [[a|e] rng1];
    [|reflexivity].
  change (match hi with
          | Some true_max => ret true_max
          | None => _
          end rng1)
    with (estimate np_max f (space_factory sp) hi rng1).
  destruct (estimate np_max f (space_factory sp) hi rng1) as [[b|e] rng2];
    reflexivity.
Qed.

Lemma estimate_ok_inv (reduce : list num -> Result num) (f : Point -> num)
    (S : Space) (given : option num) (rng rng1 : Rng) (m : num) :
  reduce [] = Raise ValueError ->
  estimate reduce f S given rng = (Ok m, rng1) ->
  exists pts, drawn S given rng pts rng1 /\ stored_bound reduce f given pts m.
Proof.
  intros Hempty Hrun. destruct given as [v|].
  - injection Hrun as -> ->. exists []. split; reflexivity.
  - rewrite estimate_absent in Hrun.
    destruct (lhs S (n_dims S * 10) rng) as [[pts|e] r] eqn:Hdraw;
      [|discriminate].
    injection Hrun as Hred ->. exists pts. unfold drawn, stored_bound.
    rewrite Nat.mul_comm, Hdraw. repeat split; [|exact Hred].
    intros ->. simpl in Hred. congruence.
Qed.

Lemma estimate_drawn (reduce : list num -> Result num) (f : Point -> num)
    (S : Space) (given : option num) (pts : list Point) (rng rng1 : Rng) :
  drawn S given rng pts rng1 ->
  estimate reduce f S given rng
  = match given with
    | Some v => (Ok v, rng1)
    | None => (reduce (map f pts), rng1)
    end.
Proof.
  destruct given as [v|]; unfold drawn.
  - intros ->. reflexivity.
  - intros [Hdraw _]. rewrite estimate_absent.
    rewrite Nat.mul_comm in Hdraw. rewrite Hdraw. reflexivity.
Qed.

(** X1. When the noise specification does not parse, construction raises
    the parser's exception before anything is sampled: the random state
    is the one it started from, whether or not bounds were supplied. *)
Theorem init_parse_error :
  forall (f : Point -> num) (sp : SpaceLike) (spec : NoiseSpec num Point Rng)
         (lo hi : option num) (rng : Rng) (e : Error),
    parse_noise_model normal spec = Raise e ->
    init normal f sp spec lo hi rng = (Raise e, rng).
Proof.
  intros f sp spec lo hi rng e Hparse. rewrite init_run, Hparse. reflexivity.
Qed.

(** X2. With [true_min] absent, an empty Latin hypercube sample makes
    construction raise ValueError (from [np.min]) and an exception of the
    sampler is passed on; either way the state is the one the sampler
    left and no sample is drawn for [true_max]. *)
Theorem init_true_min_failure :
  forall (f : Point -> num) (sp : SpaceLike) (spec : NoiseSpec num Point Rng)
         (nm : NoiseModel num Point Rng) (hi : option num) (rng rng1 : Rng)
         (outcome : Result (list Point)) (e : Error),
    parse_noise_model normal spec = Ok nm ->
    lhs (space_factory sp) (n_dims (space_factory sp) * 10) rng
    = (outcome, rng1) ->
    sample_failure outcome e ->
    init normal f sp spec None hi rng = (Raise e, rng1).
Proof.
  intros f sp spec nm hi rng rng1 outcome e Hparse Hdraw Hfail.
  rewrite init_run, Hparse, estimate_absent, Hdraw.
  destruct outcome as [[|p pts]|e']; simpl in Hfail |- *;
    [subst e; reflexivity|contradiction|subst e; reflexivity].
Qed.

(** X3. With [true_max] absent, once [true_min] is settled (supplied, or
    estimated from a non-empty sample), an empty sample for [true_max]
    makes construction raise ValueError (from [np.max]) and an exception
    of the sampler is passed on; no ModelSystem is built. *)
Theorem init_true_max_failure :
  forall (f : Point -> num) (sp : SpaceLike) (spec : NoiseSpec num Point Rng)
         (nm : NoiseModel num Point Rng) (lo : option num)
         (pts1 : list Point) (rng rng1 rng2 : Rng)
         (outcome : Result (list Point)) (e : Error),
    parse_noise_model normal spec = Ok nm ->
    drawn (space_factory sp) lo rng pts1 rng1 ->
    lhs (space_factory sp) (n_dims (space_factory sp) * 10) rng1
    = (outcome, rng2) ->
    sample_failure outcome e ->
    init normal f sp spec lo None rng = (Raise e, rng2).
Proof.
  intros f sp spec nm lo pts1 rng rng1 rng2 outcome e Hparse Hlo Hdraw Hfail.
  rewrite init_run, Hparse, (estimate_drawn _ _ _ _ _ _ _ Hlo).
  assert (Hmin : exists a,
    match lo with
    | Some v => (Ok v, rng1)
    | None => (np_min (map f pts1), rng1)
    end = (Ok a, rng1)).
  { destruct lo as [v|]; [exists v; reflexivity|].
    destruct Hlo as [_ Hne].
    destruct (np_min_nonempty (map f pts1)) as [a Ha];
      [apply map_nonempty; exact Hne|].
    exists a. rewrite Ha. reflexivity. }
  destruct Hmin as [a ->].
  rewrite estimate_absent, Hdraw.
  destruct outcome as [[|p pts]|e']; simpl in Hfail |- *;
    [subst e; reflexivity|contradiction|subst e; reflexivity].
Qed.

(** X4. Whenever construction returns a ModelSystem, its score and space
    are the ones given, its noise model is what the parser returned, and
    each bound is either the caller's value, with nothing drawn for it,
    or the [np.min] (resp. [np.max]) of the scores of a non-empty sample
    of [10 * n_dims] requested points, the sample for [true_max] being
    drawn after the one for [true_min]. *)
Theorem init_success_inversion :
  forall (f : Point -> num) (sp : SpaceLike) (spec : NoiseSpec num Point Rng)
         (lo hi : option num) (rng rng' : Rng)
         (ms : ModelSystem num Point Rng),
    init normal f sp spec lo hi rng = (Ok ms, rng') ->
    score ms = f
    /\ space ms = space_factory sp
    /\ parse_noise_model normal spec = Ok (noise_model ms)
    /\ exists (pts1 pts2 : list Point) (rng1 : Rng),
        drawn (space_factory sp) lo rng pts1 rng1
        /\ drawn (space_factory sp) hi rng1 pts2 rng'
        /\ stored_bound np_min f lo pts1 (true_min ms)
        /\ stored_bound np_max f hi pts2 (true_max ms).
Proof.
  intros f sp spec lo hi rng rng' ms Hinit. rewrite init_run in Hinit.
  destruct (parse_noise_model normal spec) as [nm|e]; [|discriminate].
  destruct (estimate np_min f (space_factory sp) lo rng) as [[a|e] rng1]
    eqn:Hmin; [|discriminate].
  destruct (estimate np_max f (space_factory sp) hi rng1) as [[b|e] rng2]
    eqn:Hmax; [|discriminate].
  injection Hinit as <- <-.
  destruct (estimate_ok_inv _ _ _ _ _ _ _ eq_refl Hmin) as (pts1 & Hd1 & Hs1).
  destruct (estimate_ok_inv _ _ _ _ _ _ _ eq_refl Hmax) as (pts2 & Hd2 & Hs2).
  repeat split. exists pts1, pts2, rng1. repeat split; assumption.
Qed.
End ConstructionFacts.

(** ** Estimated bounds and the losses measured against them *)

Section BoundFacts.
Context {num Point Rng : Type} `{Scalar num} `{Optimizer num Point Rng}.
Variable normal : num -> M Rng num.
Hypothesis leb_total : forall x y : num,
  (x <=? y)%num = true \/ (y <=? x)%num = true.
Hypothesis leb_trans : forall x y z : num,
  (x <=? y)%num = true -> (y <=? z)%num = true -> (x <=? z)%num = true.

Lemma np_min_below (f : Point -> num) (pts : list Point) (a : num) (x : Point) :
  np_min (map f pts) = Ok a -> x ∈ pts -> (a <=? f x)%num = true.
Proof.
  intros Hmin Hx.
  destruct (np_min_least leb_total leb_trans _ _ Hmin) as [_ Hall].
  rewrite Forall_forall in Hall. apply Hall, list_elem_of_fmap.
  exists x. split; [reflexivity|exact Hx].
Qed.

Lemma np_max_above (f : Point -> num) (pts : list Point) (b : num) (x : Point) :
  np_max (map f pts) = Ok b -> x ∈ pts -> (f x <=? b)%num = true.
Proof.
  intros Hmax Hx.
  destruct (np_max_greatest leb_total leb_trans _ _ Hmax) as [_ Hall].
  rewrite Forall_forall in Hall. apply Hall, list_elem_of_fmap.
  exists x. split; [reflexivity|exact Hx].
Qed.

(** X5. When [true_min] was estimated at construction and the expected
    minimum of a result is one of the sampled points, [result_loss]
    returns the score there minus a [true_min] that does not exceed it;
    in an arithmetic where [b - a] is at least zero whenever [a <= b],
    that loss is not negative. *)
Theorem result_loss_on_sampled_point :
  forall (zero : num)
         (sub_nonneg : forall a b : num,
             (a <=? b)%num = true -> (zero <=? b - a)%num = true)
         (f : Point -> num) (sp : SpaceLike) (spec : NoiseSpec num Point Rng)
         (hi : option num) (rng rng1 rng' r r' : Rng) (pts : list Point)
         (ms : ModelSystem num Point Rng) (result : OptimizeResult)
         (x : Point) (v : num),
    init normal f sp spec None hi rng = (Ok ms, rng') ->
    lhs (space_factory sp) (n_dims (space_factory sp) * 10) rng
    = (Ok pts, rng1) ->
    expected_minimum result r = (Ok (x, v), r') ->
    x ∈ pts ->
    result_loss ms result r = (Ok (f x - true_min ms)%num, r')
    /\ (true_min ms <=? f x)%num = true
    /\ (zero <=? f x - true_min ms)%num = true.
Proof.
  intros zero sub_nonneg f sp spec hi rng rng1 rng' r r' pts ms result x v
    Hinit Hdraw Hloc Hx.
  rewrite init_run in Hinit.
  destruct (parse_noise_model normal spec) as [nm|e]; [|discriminate].
  rewrite estimate_absent, Hdraw in Hinit.
  destruct (np_min (map f pts)) as [a|e] eqn:Hmin; [|discriminate].
  destruct (estimate np_max f (space_factory sp) hi rng1) as [[b|e] rng2];
    [|discriminate].
  injection Hinit as <- <-. rewrite result_loss_run, Hloc. simpl.
  assert (Hle : (a <=? f x)%num = true)
    by (eapply np_min_below; eassumption).
  split; [reflexivity|]. split; [exact Hle|]. apply sub_nonneg, Hle.
Qed.


(** X6. When both bounds are estimated, they come out ordered as soon as
    some point of the first sample scores no more than some point of the
    second one (in particular when the two samples share a point). *)
Theorem estimated_bounds_ordered :
  forall (f : Point -> num) (sp : SpaceLike) (spec : NoiseSpec num Point Rng)
         (rng rng1 rng2 rng' : Rng) (pts1 pts2 : list Point) (x1 x2 : Point)
         (ms : ModelSystem num Point Rng),
    init normal f sp spec None None rng = (Ok ms, rng') ->
    lhs (space_factory sp) (n_dims (space_factory sp) * 10) rng
    = (Ok pts1, rng1) ->
    lhs (space_factory sp) (n_dims (space_factory sp) * 10) rng1
    = (Ok pts2, rng2) ->
    x1 ∈ pts1 -> x2 ∈ pts2 -> (f x1 <=? f x2)%num = true ->
    (true_min ms <=? true_max ms)%num = true.
Proof.
  intros f sp spec rng rng1 rng2 rng' pts1 pts2 x1 x2 ms
    Hinit Hd1 Hd2 Hx1 Hx2 Hle.
  rewrite init_run in Hinit.
  destruct (parse_noise_model normal spec) as [nm|e]; [|discriminate].
  rewrite estimate_absent, Hd1 in Hinit.
  destruct (np_min (map f pts1)) as [a|e] eqn:Hmin; [|discriminate].
  rewrite estimate_absent, Hd2 in Hinit.
  destruct (np_max (map f pts2)) as [b|e] eqn:Hmax; [|discriminate].
  injection Hinit as <- <-. simpl.
  eapply leb_trans; [eapply np_min_below; eassumption|].
  eapply leb_trans; [exact Hle|]. eapply np_max_above; eassumption.
Qed.
End BoundFacts.

(** ** Swapping the noise model *)

Section SwapFacts.
Context {num Point Rng : Type} `{Scalar num} `{Optimizer num Point Rng}.
Variable normal : num -> M Rng num.
Variable builtin_get_noise :
  NoiseModel num Point Rng -> Point -> num -> M Rng num.

Lemma with_noise_model_twice (self : ModelSystem num Point Rng)
    (nm1 nm2 : NoiseModel num Point Rng) :
  with_noise_model (with_noise_model self nm1) nm2 = with_noise_model self nm2.
Proof. reflexivity. Qed.

(** X7. Of two [set_noise_model] calls in a row the last one that parses
    decides the noise model: if the second specification parses, the
    object ends as if only the second call had been made; if it does not,
    the second call raises and the object stays as the first call left
    it. *)
Theorem set_noise_model_twice :
  forall (self : ModelSystem num Point Rng) (a b : NoiseSpec num Point Rng),
    set_noise_model normal (set_noise_model normal self a).2 b
    = match parse_noise_model normal b with
      | Ok _ => set_noise_model normal self b
      | Raise e => (Raise e, (set_noise_model normal self a).2)
      end.
Proof.
  intros self a b. unfold set_noise_model.
  destruct (parse_noise_model normal b) as [nmb|e];
    destruct (parse_noise_model normal a) as [nma|e']; reflexivity.
Qed.

(** X8. Swapping the noise model after construction gives the system that
    construction with the new specification would have built from the
    same random state: parsing draws nothing and the bounds do not depend
    on the noise model. *)
Theorem init_then_set_noise_model :
  forall (f : Point -> num) (sp : SpaceLike) (a b : NoiseSpec num Point Rng)
         (nm : NoiseModel num Point Rng) (lo hi : option num) (rng rng' : Rng)
         (ms : ModelSystem num Point Rng),
    init normal f sp a lo hi rng = (Ok ms, rng') ->
    parse_noise_model normal b = Ok nm ->
    set_noise_model normal ms b = (Ok tt, with_noise_model ms nm)
    /\ init normal f sp b lo hi rng = (Ok (with_noise_model ms nm), rng').
Proof.
  intros f sp a b nm lo hi rng rng' ms Hinit Hb.
  rewrite init_run in Hinit. rewrite init_run, Hb.
  unfold set_noise_model. rewrite Hb.
  destruct (parse_noise_model normal a) as [nma|e]; [|discriminate].
  destruct (estimate np_min f (space_factory sp) lo rng) as [[lo'|e] rng1];
    [|discriminate].
  destruct (estimate np_max f (space_factory sp) hi rng1) as [[hi'|e] rng2];
    [|discriminate].
  injection Hinit as <- <-. split; reflexivity.
Qed.

(** X9. After [set_noise_model], [get_score] adds the noise of the model
    the specification parsed to, on the same noiseless score; after a
    call that raised, [get_score] behaves as before the call. *)
Theorem get_score_after_set_noise_model :
  forall (self : ModelSystem num Point Rng) (spec : NoiseSpec num Point Rng)
         (X : Point) (rng : Rng),
    get_score builtin_get_noise (set_noise_model normal self spec).2 X rng
    = match parse_noise_model normal spec with
      | Ok nm =>
          match get_noise builtin_get_noise nm X (score self X) rng with
          | (Ok noise, rng') => (Ok (score self X + noise)%num, rng')
          | (Raise e, rng') => (Raise e, rng')
          end
      | Raise _ => get_score builtin_get_noise self X rng
      end.
Proof.
  intros self spec X rng. unfold set_noise_model.
  destruct (parse_noise_model normal spec) as [nm|e]; [|reflexivity].
  unfold get_score, bind. simpl.
  destruct (get_noise builtin_get_noise nm X (score self X) rng)
    as [[noise|e] rng']; reflexivity.
Qed.
End SwapFacts.

(** ** Noise over a list of signals *)

Section ComprehensionFacts.
Context {num Point Rng : Type} `{Scalar num}.

Lemma apply_resolve (nm : NoiseModel num Point Rng) (X : Point) (s : num) :
  apply nm X s = apply (resolve nm X) X s.
Proof.
  induction nm as [| | |selector IH|]; try reflexivity.
  simpl. apply IH.
Qed.

(** X10. Under a model that comes down to ZeroNoise at context [X]
    (ZeroNoise itself, or a data-dependent model whose selectors lead to
    it there), the comprehension over any list of signals returns the
    signals unchanged and draws nothing. *)
Theorem apply_each_zero :
  forall (nm : NoiseModel num Point Rng) (X : Point) (signals : list num)
         (rng : Rng),
    resolve nm X = ZeroNoise ->
    apply_each nm X signals rng = (Ok signals, rng).
Proof.
  intros nm X signals rng Hres. unfold apply_each.
  induction signals as [|s l IH]; simpl; [reflexivity|].
  unfold bind. rewrite apply_resolve, Hres. simpl.
  rewrite IH. reflexivity.
Qed.

(** X11. Under a model that comes down to AdditiveNoise at context [X],
    the comprehension draws from the sampler once per signal, in the
    order of the signals, and adds the i-th draw to the i-th signal; it
    stops at the first draw that raises. *)
Theorem apply_each_additive :
  forall (nm : NoiseModel num Point Rng) (X : Point) (sample : M Rng num)
         (signals : list num) (rng : Rng),
    resolve nm X = AdditiveNoise sample ->
    apply_each nm X signals rng
    = (noises <- mapM (fun _ => sample) signals ;;
       ret (zip_with num_add signals noises)) rng.
Proof.
  intros nm X sample signals rng Hres. unfold apply_each. revert rng.
  induction signals as [|s l IH]; intros rng; simpl; [reflexivity|].
  unfold bind in IH |- *. rewrite apply_resolve, Hres. simpl. unfold bind.
  destruct (sample rng) as [[n|e] rng1]; [|reflexivity].
  simpl. rewrite IH.
  destruct (mapM (fun _ => sample) l rng1) as [[ns|e] rng2]; reflexivity.
Qed.

(** X12. Under a model that comes down to MultiplicativeNoise at context
    [X], the comprehension draws once per signal, in order, and scales
    the i-th signal by one plus the i-th draw. *)
Theorem apply_each_multiplicative :
  forall (nm : NoiseModel num Point Rng) (X : Point) (sample : M Rng num)
         (signals : list num) (rng : Rng),
    resolve nm X = MultiplicativeNoise sample ->
    apply_each nm X signals rng
    = (noises <- mapM (fun _ => sample) signals ;;
       ret (zip_with (fun s n => (s * (num_one + n))%num) signals noises)) rng.
Proof.
  intros nm X sample signals rng Hres. unfold apply_each. revert rng.
  induction signals as [|s l IH]; intros rng; simpl; [reflexivity|].
  unfold bind in IH |- *. rewrite apply_resolve, Hres. simpl. unfold bind.
  destruct (sample rng) as [[n|e] rng1]; [|reflexivity].
  simpl. rewrite IH.
  destruct (mapM (fun _ => sample) l rng1) as [[ns|e] rng2]; reflexivity.
Qed.
End ComprehensionFacts.

(** ** Runs of the further properties on the rational instance *)

Import Selection.

Lemma init_parse_error_witness :
  parse_noise_model (Point := Point) pseudo_normal (SpecStr "zer")
  = Raise ConfigurationError
  /\ init pseudo_normal first_coord 1%nat (SpecStr "zer") None None 0%nat
     = (Raise ConfigurationError, 0%nat).
Proof.
  assert (Hparse : parse_noise_model (Point := Point) pseudo_normal
                     (SpecStr "zer") = Raise ConfigurationError)
    by (vm_compute; reflexivity).
  split; [exact Hparse|].
  exact (init_parse_error pseudo_normal first_coord 1%nat (SpecStr "zer")
           None None 0%nat ConfigurationError Hparse).
Defined.

Lemma init_true_min_failure_witness :
  lhs (Optimizer := unit_cube) 0%nat (0 * 10) 0%nat = (Ok [], 0%nat)
  /\ init pseudo_normal first_coord 0%nat (SpecStr "zero") None None 0%nat
     = (Raise ValueError, 0%nat).
Proof.
  split; [reflexivity|].
  apply (@init_true_min_failure Q Point Rng Q_Scalar unit_cube
           pseudo_normal first_coord 0%nat
           (SpecStr "zero") ZeroNoise None 0%nat 0%nat (Ok []) ValueError);
    reflexivity.
Defined.

Lemma init_true_max_failure_witness :
  drawn 0%nat (Some 0%Q) 0%nat [] 0%nat
  /\ init pseudo_normal first_coord 0%nat (SpecStr "zero") (Some 0%Q) None
       0%nat = (Raise ValueError, 0%nat).
Proof.
  split; [reflexivity|].
  apply (@init_true_max_failure Q Point Rng Q_Scalar unit_cube
           pseudo_normal first_coord 0%nat
           (SpecStr "zero") ZeroNoise (Some 0%Q) [] 0%nat 0%nat 0%nat
           (Ok []) ValueError); reflexivity.
Defined.

Lemma line_system_built :
  init pseudo_normal first_coord 1%nat (SpecStr "zero") None None 0%nat
  = (Ok line_system, 0%nat).
Proof. reflexivity. Qed.

Lemma init_success_inversion_witness :
  parse_noise_model pseudo_normal (SpecStr "zero")
  = Ok (noise_model line_system)
  /\ exists (pts1 pts2 : list Point) (rng1 : Rng),
      drawn 1%nat None 0%nat pts1 rng1
      /\ drawn 1%nat None rng1 pts2 0%nat
      /\ stored_bound np_min first_coord None pts1 (true_min line_system)
      /\ stored_bound np_max first_coord None pts2 (true_max line_system).
Proof.
  apply (@init_success_inversion Q Point Rng Q_Scalar unit_cube
           pseudo_normal first_coord 1%nat
           (SpecStr "zero") None None 0%nat 0%nat line_system
           line_system_built).
Defined.

Lemma Qle_bool_sub_nonneg (a b : Q) :
  Qle_bool a b = true -> Qle_bool 0 (b - a) = true.
Proof.
  rewrite !Qle_bool_iff. intros Hab. unfold Qminus.
  apply (proj1 (Qle_minus_iff a b)), Hab.
Qed.

Lemma result_loss_on_sampled_point_witness :
  [1 # 4] ∈ first_sample
  /\ expected_minimum found_quarter 7%nat = (Ok ([1 # 4], 0%Q), 27%nat)
  /\ result_loss line_system found_quarter 7%nat
     = (Ok ((1 # 4) - (1 # 20))%Q, 27%nat)
  /\ Qle_bool (1 # 20) (1 # 4) = true
  /\ Qle_bool 0 ((1 # 4) - (1 # 20)) = true.
Proof.
  assert (Hin : [1 # 4] ∈ first_sample) by (repeat constructor).
  assert (Hloc : expected_minimum found_quarter 7%nat
                 = (Ok ([1 # 4], 0%Q), 27%nat)) by (vm_compute; reflexivity).
  split; [exact Hin|]. split; [exact Hloc|].
  exact (@result_loss_on_sampled_point Q Point Rng Q_Scalar unit_cube
           pseudo_normal Qle_bool_total Qle_bool_trans 0%Q
           Qle_bool_sub_nonneg first_coord 1%nat (SpecStr "zero") None
           0%nat 0%nat 0%nat 7%nat 27%nat first_sample line_system
           found_quarter [1 # 4] 0%Q
           line_system_built (unit_lhs_first 0%nat) Hloc Hin).
Defined.

Lemma estimated_bounds_ordered_witness :
  Qle_bool (first_coord [1 # 20]) (first_coord [19 # 20]) = true
  /\ Qle_bool (true_min line_system) (true_max line_system) = true.
Proof.
  split; [reflexivity|].
  apply (@estimated_bounds_ordered Q Point Rng Q_Scalar unit_cube
           pseudo_normal Qle_bool_total Qle_bool_trans
           first_coord 1%nat (SpecStr "zero") 0%nat 0%nat 0%nat 0%nat
           first_sample first_sample [1 # 20] [19 # 20] line_system
           line_system_built (unit_lhs_first 0%nat) (unit_lhs_first 0%nat));
    [repeat constructor|repeat constructor|reflexivity].
Defined.

Lemma init_then_set_noise_model_witness :
  set_noise_model pseudo_normal line_system (SpecStr "constant")
  = (Ok tt, with_noise_model line_system (AdditiveNoise (pseudo_normal 1)))
  /\ init pseudo_normal first_coord 1%nat (SpecStr "constant") None None 0%nat
     = (Ok (with_noise_model line_system (AdditiveNoise (pseudo_normal 1))),
        0%nat).
Proof.
  apply (@init_then_set_noise_model Q Point Rng Q_Scalar unit_cube
           pseudo_normal first_coord 1%nat
           (SpecStr "zero") (SpecStr "constant")
           (AdditiveNoise (pseudo_normal 1)) None None 0%nat 0%nat
           line_system line_system_built).
  vm_compute. reflexivity.
Defined.

Lemma apply_each_zero_witness :
  resolve by_first_coord [0; 10; 5]%Q = ZeroNoise
  /\ apply_each by_first_coord [0; 10; 5]%Q [1; 7; 43]%Q 0%nat
     = (Ok [1; 7; 43]%Q, 0%nat).
Proof.
  split; [reflexivity|].
  apply (apply_each_zero by_first_coord [0; 10; 5]%Q [1; 7; 43]%Q 0%nat).
  reflexivity.
Defined.

Lemma apply_each_additive_witness :
  resolve by_first_coord [1; 27; 53]%Q = AdditiveNoise (pseudo_normal 1)
  /\ apply_each by_first_coord [1; 27; 53]%Q [1; 7; 43]%Q 0%nat
     = (Ok [2; 6; 44]%Q, 3%nat).
Proof.
  assert (Hres : resolve by_first_coord [1; 27; 53]%Q
                 = AdditiveNoise (pseudo_normal 1)) by reflexivity.
  split; [exact Hres|].
  rewrite (apply_each_additive by_first_coord [1; 27; 53]%Q (pseudo_normal 1)
             [1; 7; 43]%Q 0%nat Hres).
  vm_compute. reflexivity.
Defined.

Lemma apply_each_multiplicative_witness :
  apply_each (MultiplicativeNoise (ret 2%Q) : NoiseModel Q Point Rng)
    [] [1; 7; 43]%Q 0%nat
  = (Ok [3; 21; 129]%Q, 0%nat).
Proof.
  rewrite (@apply_each_multiplicative Q Point Rng Q_Scalar
             (MultiplicativeNoise (ret 2%Q)) [] (ret 2%Q) [1; 7; 43]%Q 0%nat
             eq_refl).
  vm_compute. reflexivity.
Defined.

Lemma mapM_cons_run {Rng A B} (f : A -> M Rng B) (a : A) (l : list A)
    (rng : Rng) :
  mapM f (a :: l) rng
  = match f a rng with
    | (Ok b, rng1) =>
        match mapM f l rng1 with
        | (Ok bs, rng2) => (Ok (b :: bs), rng2)
        | (Raise e, rng2) => (Raise e, rng2)
        end
    | (Raise e, rng1) => (Raise e, rng1)
    end.
Proof.
  simpl. unfold bind. destruct (f a rng) as [[b|e] rng1]; [|reflexivity].
  destruct (mapM f l rng1) as [[bs|e] rng2]; reflexivity.
Qed.

(** X13. With the constant samplers the tests install ([lambda: 2],
    [lambda: noise_level]), the comprehension over any list of signals
    adds the constant to every signal (additive) or scales every signal
    by one plus the constant (multiplicative), whatever the context, and
    leaves the random state alone. *)
Theorem apply_each_constant_sampler :
  forall (num Point Rng : Type) (HS : Scalar num) (X : Point) (c : num)
         (signals : list num) (rng : Rng),
    apply_each (AdditiveNoise (ret c)) X signals rng
    = (Ok (map (fun s => (s + c)%num) signals), rng)
    /\ apply_each (MultiplicativeNoise (ret c)) X signals rng
       = (Ok (map (fun s => (s * (num_one + c))%num) signals), rng).
Proof.
  intros num Point Rng HS X c signals rng. unfold apply_each.
  split; (induction signals as [|s l IH]; [reflexivity|]);
    rewrite mapM_cons_run.
  - change (apply (AdditiveNoise (ret c)) X s rng)
      with (Ok (s + c)%num, rng).
    cbv beta iota. rewrite IH. reflexivity.
  - change (apply (MultiplicativeNoise (ret c)) X s rng)
      with (Ok (s * (num_one + c))%num, rng).
    cbv beta iota. rewrite IH. reflexivity.
Qed.

(** ** The bounds and the random starts, on the library's behaviour *)

(** C10, as stated, fails: [result_loss] consumes the randomness its
    [expected_minimum] call draws.  On the system built for the score
    [x], with a result whose own best point is [1/2], the run before
    [set_noise_model] starts from state 0, restarts from [1/2 .. 1/21]
    and returns [1/21 - 1/20]; it leaves state 20, from which the run
    after [set_noise_model] restarts from [1/22 .. 1/41] and returns
    [1/41 - 1/20]. *)
Lemma result_loss_draws_random_starts :
  result_loss line_system found_half 0%nat = (Ok (-1 # 420), 20%nat)
  /\ result_loss
       (set_noise_model pseudo_normal line_system (SpecStr "constant")).2
       found_half 20%nat
     = (Ok (-21 # 820), 40%nat)
  /\ (result_loss line_system found_half 0%nat).1
     <> (result_loss
           (set_noise_model pseudo_normal line_system (SpecStr "constant")).2
           found_half (result_loss line_system found_half 0%nat).2).1
  /\ (result_loss line_system found_half 0%nat).2 <> 0%nat.
Proof.
  split; [vm_compute; reflexivity|].
  split; [vm_compute; reflexivity|].
  split; vm_compute; discriminate.
Qed.



